(** * The List block's content transcoder (blocks/library/list/index.js)

    A shallow embedding of the pure parts of the List block:
    [fromBrDelimitedContent] (flat text to list markup),
    [toBrDelimitedContent] (list markup to flat text), the block's [merge]
    policy and the [onSplit] handler of its edit component.

    JavaScript strings are modelled as [string]; every [ascii] stands for one
    code unit in the range U+0000..U+00FF.  A JavaScript value that is either
    [undefined] or a string is an [option string], [None] being [undefined]. *)

From Stdlib Require Import Strings.String Strings.Ascii Lists.List Arith.PeanoNat Bool.Bool Lia.
Import ListNotations.
Local Open Scope list_scope.
Local Open Scope string_scope.

(** ** JavaScript primitives used by the block *)

Module JS.

(** Truthiness of a string: only the empty string is falsy. *)
Definition truthy (s : string) : bool :=
  match s with
  | EmptyString => false
  | String _ _ => true
  end.

(** [x || d] on a value that is [undefined] or a string. *)
Definition or_else (x : option string) (d : string) : string :=
  match x with
  | Some s => if truthy s then s else d
  | None => d
  end.

(** An array element converted by [Array.prototype.join]: [undefined]
    contributes the empty string. *)
Definition element_text (x : option string) : string :=
  match x with
  | Some s => s
  | None => ""
  end.

(** [Array.prototype.join(separator)]; a missing separator is a comma. *)
Fixpoint join_with (sep : string) (xs : list (option string)) : string :=
  match xs with
  | [] => ""
  | [x] => element_text x
  | x :: rest => element_text x ++ sep ++ join_with sep rest
  end.

Definition join (separator : option string) (xs : list (option string)) : string :=
  join_with (match separator with Some sep => sep | None => "," end) xs.

(** [Array.prototype.reduce] with an initial value. *)
Definition reduce {A B : Type} (callback : B -> A -> B) (xs : list A) (initial : B) : B :=
  fold_left callback xs initial.

(** [forEach] with a callback that updates a state [S]: the array and
    [NodeList] loops of the source whose callbacks push to an array. *)
Definition forEach {A S : Type} (callback : A -> S -> S) (xs : list A) (s : S) : S :=
  fold_left (fun s x => callback x s) xs s.

(** [Array.prototype.push], returning the extended array. *)
Definition push {A : Type} (xs : list A) (x : A) : list A := (xs ++ [x])%list.

(** The character class [\s], on code units below U+0100: tab, line feed,
    vertical tab, form feed, carriage return, space and no-break space. *)
Definition is_space (c : ascii) : bool :=
  let n := nat_of_ascii c in
  (Nat.leb 9 n && Nat.leb n 13) || Nat.eqb n 32 || Nat.eqb n 160.

End JS.

(** ** The line-break pattern [/<br\s*?\/?>/] *)

Module BrPattern.

(** The literal [p] at the head of [s]: what follows it. *)
Fixpoint literal (p s : string) : option string :=
  match p with
  | EmptyString => Some s
  | String a p' =>
      match s with
      | String c s' => if Ascii.eqb c a then literal p' s' else None
      | EmptyString => None
      end
  end.

(** [\/?>] at the head of [s]: the number of code units it consumes.  The
    optional slash is tried first. *)
Definition slash_gt (s : string) : option nat :=
  match literal "/>" s with
  | Some _ => Some 2
  | None =>
      match literal ">" s with
      | Some _ => Some 1
      | None => None
      end
  end.

(** [\s*?\/?>] at the head of [s], after [n] code units of the match: the
    lazy star first tries the rest of the pattern and only then consumes one
    more white-space code unit. *)
Fixpoint lazy_spaces (s : string) (n : nat) : option nat :=
  match slash_gt s with
  | Some k => Some (n + k)
  | None =>
      match s with
      | String c s' => if JS.is_space c then lazy_spaces s' (S n) else None
      | EmptyString => None
      end
  end.

(** The whole pattern anchored at the head of [s]: the length of the match. *)
Definition match_at (s : string) : option nat :=
  match literal "<br" s with
  | Some s' => lazy_spaces s' 3
  | None => None
  end.

(** [String.prototype.split] with the pattern.  The scan position [q] moves
    through [s] one code unit at a time; [seg] holds the code units between
    the end [p] of the previous match and [q].  A match of length [n] at [q]
    closes the segment and moves both [p] and [q] behind the match: the next
    [n - 1] code units are [inside] it.  The pattern matches no empty string,
    so the empty input yields one empty segment like every other end of
    input. *)
Fixpoint split_loop (s : string) (inside : nat) (seg : string) : list string :=
  match s with
  | EmptyString => [seg]
  | String c s' =>
      match inside with
      | S k => split_loop s' k seg
      | O =>
          match match_at s with
          | Some n => seg :: split_loop s' (Nat.pred n) ""
          | None => split_loop s' 0 (seg ++ String c "")
          end
      end
  end.

Definition split (s : string) : list string := split_loop s 0 "".

(** The language of the pattern, stated without reference to the matcher. *)
Fixpoint all_space (s : string) : bool :=
  match s with
  | EmptyString => true
  | String c s' => JS.is_space c && all_space s'
  end.

Inductive Marker : string -> Prop :=
  | marker_open : forall ws, all_space ws = true -> Marker ("<br" ++ ws ++ ">")
  | marker_self_closing : forall ws, all_space ws = true -> Marker ("<br" ++ ws ++ "/>").

(** [s] has no substring in the language of the pattern. *)
Definition marker_free (s : string) : Prop :=
  forall pre m post, s = pre ++ m ++ post -> ~ Marker m.

(** The pattern matches at no position of [s]. *)
Fixpoint no_match (s : string) : bool :=
  match match_at s with
  | Some _ => false
  | None =>
      match s with
      | String _ s' => no_match s'
      | EmptyString => true
      end
  end.

End BrPattern.

(** ** Flat text to list markup *)

(** The callback given to [reduce]. *)
Definition li_of (memo : list (option string)) (item : string) : list (option string) :=
  if JS.truthy item then JS.push memo (Some ("<li>" ++ item ++ "</li>")) else memo.

Definition fromBrDelimitedContent (content : option string) : option string :=
  match content with
  | None => None
  | Some content =>
      Some (JS.join None (JS.reduce li_of (BrPattern.split content) []))
  end.

(** ** The DOM nodes the block reads

    [toBrDelimitedContent] assigns its argument to the [innerHTML] of a fresh
    [ul] element and walks the resulting nodes through [childNodes],
    [nodeName], [nodeType], [nodeValue] and [outerHTML]. *)

Module DOM.

#[warnings="-register-all"]
Inductive node : Type :=
  | Text (data : string)
  | Comment (data : string)
  | Element (localName : string) (attributes : list (string * string))
            (children : list node).

Definition childNodes (n : node) : list node :=
  match n with
  | Element _ _ children => children
  | _ => []
  end.

Definition upper (c : ascii) : ascii :=
  let n := nat_of_ascii c in
  if Nat.leb 97 n && Nat.leb n 122 then ascii_of_nat (n - 32) else c.

Definition lower (c : ascii) : ascii :=
  let n := nat_of_ascii c in
  if Nat.leb 65 n && Nat.leb n 90 then ascii_of_nat (n + 32) else c.

Fixpoint map_string (f : ascii -> ascii) (s : string) : string :=
  match s with
  | EmptyString => EmptyString
  | String c s' => String (f c) (map_string f s')
  end.

(** [nodeName] of a node of an HTML document: the upper-cased tag name of an
    element. *)
Definition nodeName (n : node) : string :=
  match n with
  | Text _ => "#text"
  | Comment _ => "#comment"
  | Element name _ _ => map_string upper name
  end.

Definition ELEMENT_NODE : nat := 1.
Definition TEXT_NODE : nat := 3.
Definition COMMENT_NODE : nat := 8.

Definition nodeType (n : node) : nat :=
  match n with
  | Text _ => TEXT_NODE
  | Comment _ => COMMENT_NODE
  | Element _ _ _ => ELEMENT_NODE
  end.

(** [nodeValue] is the data of a text or comment node and [null], which
    [join] prints like [undefined], on an element. *)
Definition nodeValue (n : node) : option string :=
  match n with
  | Text data => Some data
  | Comment data => Some data
  | Element _ _ _ => None
  end.

(** *** Serialisation ([outerHTML]) *)

Definition nbsp : ascii := ascii_of_nat 160.
Definition quote : ascii := ascii_of_nat 34.

Fixpoint escape (in_attribute : bool) (s : string) : string :=
  match s with
  | EmptyString => EmptyString
  | String c s' =>
      (if Ascii.eqb c "&" then "&amp;"
       else if Ascii.eqb c nbsp then "&nbsp;"
       else if in_attribute then
         (if Ascii.eqb c quote then "&quot;" else String c "")
       else if Ascii.eqb c "<" then "&lt;"
       else if Ascii.eqb c ">" then "&gt;"
       else String c "")
      ++ escape in_attribute s'
  end.

Definition mem (name : string) (names : list string) : bool :=
  existsb (String.eqb name) names.

Definition void_elements : list string :=
  ["area"; "base"; "basefont"; "bgsound"; "br"; "col"; "embed"; "frame";
   "hr"; "img"; "input"; "keygen"; "link"; "meta"; "param"; "source";
   "track"; "wbr"].

Definition raw_text_elements : list string :=
  ["style"; "script"; "xmp"; "iframe"; "noembed"; "noframes"; "plaintext";
   "noscript"].

Fixpoint serialize_attributes (attrs : list (string * string)) : string :=
  match attrs with
  | [] => ""
  | (name, value) :: rest =>
      " " ++ name ++ "=" ++ String quote (escape true value) ++ String quote ""
      ++ serialize_attributes rest
  end.

(** The HTML fragment serialisation of one node; [raw] tells whether the
    parent prints its text children unescaped. *)
Fixpoint serialize (raw : bool) (n : node) : string :=
  match n with
  | Text data => if raw then data else escape false data
  | Comment data => "<!--" ++ data ++ "-->"
  | Element name attrs children =>
      "<" ++ name ++ serialize_attributes attrs ++ ">"
      ++ (if mem name void_elements then ""
          else
            (fix each (ns : list node) : string :=
               match ns with
               | [] => ""
               | child :: rest => serialize (mem name raw_text_elements) child ++ each rest
               end) children
            ++ "</" ++ name ++ ">")
  end.

(** [outerHTML] exists on elements only; on other nodes the property read
    gives [undefined]. *)
Definition outerHTML (n : node) : option string :=
  match n with
  | Element _ _ _ => Some (serialize false n)
  | _ => None
  end.

(** *** Fragment parsing ([innerHTML] of a [ul] element)

    A model of the HTML fragment parser on the markup a list block holds:
    text, the list elements [ul], [ol] and [li], phrasing elements without
    special parsing rules, and the void elements [br] and [wbr], written as
    [<name>] and [</name>].  On this markup the parser runs in the data
    state of the tokenizer and the "in body" insertion mode.  Everything the
    model does not cover (attributes, character references, comments,
    carriage returns, NUL, other elements, an end tag that closes neither
    the current node nor a list whose last item is the current node) makes
    [innerHTML] answer [None]. *)

Inductive token : Type :=
  | Character (c : ascii)
  | StartTag (name : string)
  | EndTag (name : string).

Inductive tokenizer_state : Type :=
  | Data
  | TagOpen
  | EndTagOpen
  | TagName (closing : bool) (name : string).

Definition is_alpha (c : ascii) : bool :=
  let n := nat_of_ascii (lower c) in Nat.leb 97 n && Nat.leb n 122.

(** The code units that end a tag name and start its attributes. *)
Definition ends_tag_name (c : ascii) : bool :=
  let n := nat_of_ascii c in
  Nat.eqb n 9 || Nat.eqb n 10 || Nat.eqb n 12 || Nat.eqb n 13 || Nat.eqb n 32.

Fixpoint tokenize (st : tokenizer_state) (s : string) : option (list token) :=
  match s with
  | EmptyString =>
      match st with
      | Data => Some []
      | _ => None
      end
  | String c s' =>
      match st with
      | Data =>
          if Ascii.eqb c "<" then tokenize TagOpen s'
          else if Ascii.eqb c "&" || Nat.eqb (nat_of_ascii c) 0
                  || Nat.eqb (nat_of_ascii c) 13 then None
          else option_map (cons (Character c)) (tokenize Data s')
      | TagOpen =>
          if is_alpha c then tokenize (TagName false (String (lower c) "")) s'
          else if Ascii.eqb c "/" then tokenize EndTagOpen s'
          else None
      | EndTagOpen =>
          if is_alpha c then tokenize (TagName true (String (lower c) "")) s'
          else None
      | TagName closing name =>
          if Ascii.eqb c ">" then
            option_map (cons (if closing then EndTag name else StartTag name))
                       (tokenize Data s')
          else if ends_tag_name c || Ascii.eqb c "/"
                  || Nat.eqb (nat_of_ascii c) 0 then None
          else tokenize (TagName closing (name ++ String (lower c) "")) s'
      end
  end.

(** An entry of the stack of open elements, with the children inserted into
    it so far. *)
Record open_element : Type := Open { tag : string; inserted : list node }.

Definition list_elements : list string := ["ul"; "ol"].

(** Formatting elements (without [a] and [nobr], whose start tags have rules
    of their own) and elements handled by "any other start tag". *)
Definition phrasing_elements : list string :=
  ["b"; "big"; "code"; "em"; "font"; "i"; "s"; "small"; "strike"; "strong";
   "tt"; "u";
   "span"; "sub"; "sup"; "abbr"; "cite"; "dfn"; "kbd"; "mark"; "q"; "samp";
   "var"; "del"; "ins"].

Definition void_phrasing : list string := ["br"; "wbr"].

(** Insert a node into the current node. *)
Definition insert (n : node) (stack : list open_element) : option (list open_element) :=
  match stack with
  | Open t kids :: below => Some (Open t (kids ++ [n])%list :: below)
  | [] => None
  end.

(** Insert a character: it extends a text node that ends the current node's
    children, or starts a new text node. *)
Fixpoint append_character (c : ascii) (kids : list node) : list node :=
  match kids with
  | [] => [Text (String c "")]
  | [Text data] => [Text (data ++ String c "")]
  | k :: rest => k :: append_character c rest
  end.

Definition insert_character (c : ascii) (stack : list open_element) : option (list open_element) :=
  match stack with
  | Open t kids :: below => Some (Open t (append_character c kids) :: below)
  | [] => None
  end.

(** Pop the current node; it is already a child of the node below it in the
    document, which the model records at this point. *)
Definition pop (stack : list open_element) : option (list open_element) :=
  match stack with
  | Open t kids :: below => insert (Element t [] kids) below
  | [] => None
  end.

Definition current_is (name : string) (stack : list open_element) : bool :=
  match stack with
  | Open t _ :: _ => String.eqb t name
  | [] => false
  end.

(** The loop of the [li] start tag: walking down the stack from the current
    node, is an [li] found before a special element ([ul], [ol] or the root
    [html])? *)
Fixpoint li_reached (stack : list open_element) : bool :=
  match stack with
  | [] => false
  | Open t _ :: below =>
      if String.eqb t "li" then true
      else if mem t list_elements || String.eqb t "html" then false
      else li_reached below
  end.

Definition bind {A B : Type} (x : option A) (f : A -> option B) : option B :=
  match x with
  | Some a => f a
  | None => None
  end.

Definition in_body (stack : list open_element) (t : token) : option (list open_element) :=
  match t with
  | Character c => insert_character c stack
  | StartTag name =>
      if String.eqb name "li" then
        if current_is "li" stack then
          bind (pop stack) (fun stack' => Some (Open name [] :: stack'))
        else if li_reached stack then None
        else Some (Open name [] :: stack)
      else if mem name list_elements || mem name phrasing_elements then
        Some (Open name [] :: stack)
      else if mem name void_phrasing then insert (Element name [] []) stack
      else None
  | EndTag name =>
      if String.eqb name "li" || mem name phrasing_elements then
        if current_is name stack then pop stack else None
      else if mem name list_elements then
        if current_is name stack then pop stack
        else if current_is "li" stack then
          bind (pop stack) (fun stack' =>
            if current_is name stack' then pop stack' else None)
        else None
      else None
  end.

Fixpoint build (stack : list open_element) (tokens : list token) : option (list open_element) :=
  match tokens with
  | [] => Some stack
  | t :: rest => bind (in_body stack t) (fun stack' => build stack' rest)
  end.

(** At the end of the input the elements still open stay as they are: each
    is the last child of the one below it, and the children of the root are
    the result. *)
Fixpoint stop_parsing (stack : list open_element) (last_child : option node) : option (list node) :=
  match stack with
  | [] => None
  | Open t kids :: below =>
      let kids' :=
        match last_child with
        | Some n => (kids ++ [n])%list
        | None => kids
        end in
      match below with
      | [] => Some kids'
      | _ => stop_parsing below (Some (Element t [] kids'))
      end
  end.

(** The child nodes of a [ul] element after [markup] is assigned to its
    [innerHTML]. *)
Definition innerHTML (markup : string) : option (list node) :=
  bind (tokenize Data markup) (fun tokens =>
  bind (build [Open "html" []] tokens) (fun stack =>
  stop_parsing stack None)).

End DOM.

(** ** List markup to flat text *)

Definition is_nested_list (element : DOM.node) : bool :=
  String.eqb "UL" (DOM.nodeName element) || String.eqb "OL" (DOM.nodeName element).

(** The closure [appendLiToContent]; the array [content] it pushes to is
    passed in and returned.  [childNodes] is read by a [match] on the node: a
    text or comment node has no children, so its [forEach] does nothing. *)
Fixpoint appendLiToContent (li : DOM.node) (content : list (option string)) : list (option string) :=
  let content :=
    match li with
    | DOM.Element _ _ childNodes =>
        JS.forEach
          (fun element content =>
             if is_nested_list element then
               match element with
               | DOM.Element _ _ childNodes' =>
                   JS.forEach appendLiToContent childNodes' content
               | _ => content
               end
             else if Nat.eqb (DOM.nodeType element) DOM.TEXT_NODE then
               JS.push content (DOM.nodeValue element)
             else
               JS.push content (DOM.outerHTML element))
          childNodes content
    | _ => content
    end in
  JS.push content (Some "<br>").

(** The result is [None] when [values] lies outside the markup covered by
    [DOM.innerHTML], and otherwise [Some] of the value the function returns. *)
Definition toBrDelimitedContent (values : option string) : option (option string) :=
  match values with
  | None => Some None
  | Some values =>
      match DOM.innerHTML values with
      | None => None
      | Some childNodes =>
          let content := JS.forEach appendLiToContent childNodes [] in
          Some (Some (JS.join (Some "") content))
      end
  end.

(** ** Block attributes, [merge] and [onSplit] *)

(** The attributes of a list block. *)
Record attributes : Type := Attributes { nodeName : string; values : string }.

(** The attributes of the block merged into a list block: [values] of a
    list-like block and [content] of a text-like block, each of which may be
    missing. *)
Record attributes_to_merge : Type :=
  ToMerge { merged_values : option string; merged_content : option string }.

Definition merge (attrs : attributes) (attributesToMerge : attributes_to_merge) : attributes :=
  let valuesToMerge := JS.or_else (merged_values attributesToMerge) "" in
  let valuesToMerge :=
    match merged_content attributesToMerge with
    | Some content =>
        if JS.truthy content then valuesToMerge ++ content else valuesToMerge
    | None => valuesToMerge
    end in
  {| nodeName := nodeName attrs; values := values attrs ++ valuesToMerge |}.

(** A block of the editor: its type name and the attributes it was created
    with. *)
Record block : Type := Block { name : string; given : list (string * string) }.

(** Modelled from the spec: [createBlock] of blocks/api, which is not among
    the sources.  It creates a block of the named type from the attributes
    given; without attributes a "core/paragraph" block is the empty
    paragraph. *)
Definition createBlock (name : string) (attrs : list (string * string)) : block :=
  Block name attrs.

(** What the edit component sees of the editor: the attributes of its own
    block and the blocks that follow it in the document. *)
Record editor : Type := Editor { current : attributes; following : list block }.

(** The callbacks the editor hands to the component, as state transformers. *)
Definition setAttributes_values (v : string) (ed : editor) : editor :=
  {| current := {| nodeName := nodeName (current ed); values := v |};
     following := following ed |}.

Definition insertBlocksAfter (blocks : list block) (ed : editor) : editor :=
  {| current := current ed; following := (blocks ++ following ed)%list |}.

(** The [onSplit] handler built by [render] for the block whose attributes
    are [current ed]; [blocks] are the rest arguments. *)
Definition onSplit (before after : string) (blocks : list block) (ed : editor) : editor :=
  let nodeName := nodeName (current ed) in
  let blocks :=
    if Nat.eqb (List.length blocks) 0
    then JS.push blocks (createBlock "core/paragraph" [])
    else blocks in
  let blocks :=
    if negb (Nat.eqb (String.length after) 0)
    then JS.push blocks
           (createBlock "core/list" [("nodeName", nodeName); ("values", after)])
    else blocks in
  insertBlocksAfter blocks (setAttributes_values before ed).

(** ** The flat text of a list, as the specification words it

    Each top-level item contributes the text of its children in document
    order and then one line-break marker.  A text child contributes its
    literal text, a nested list the flat text of its own items, and any other
    child its outer markup. *)

Module Spec.

Definition line_break : string := "<br>".

(** The concatenation of the texts of a sequence. *)
Definition texts {A : Type} (text : A -> string) (xs : list A) : string :=
  fold_right (fun x rest => text x ++ rest) "" xs.

Fixpoint item_text (li : DOM.node) : string :=
  match li with
  | DOM.Element _ _ children =>
      texts
        (fun child =>
           match child with
           | DOM.Text data => data
           | DOM.Comment _ => ""
           | DOM.Element _ _ items =>
               if is_nested_list child
               then texts (fun item => item_text item ++ line_break) items
               else JS.element_text (DOM.outerHTML child)
           end)
        children
  | _ => ""
  end.

Definition flat_text (items : list DOM.node) : string :=
  texts (fun item => item_text item ++ line_break) items.

(** Text without markup: no tag opener, no character reference, and none of
    the code units the parser rewrites (NUL, carriage return). *)
Definition plain (c : ascii) : bool :=
  negb (Ascii.eqb c "<" || Ascii.eqb c "&" || Nat.eqb (nat_of_ascii c) 0
        || Nat.eqb (nat_of_ascii c) 13).

Fixpoint all_plain (s : string) : bool :=
  match s with
  | EmptyString => true
  | String c s' => plain c && all_plain s'
  end.

End Spec.

(** What [appendLiToContent] adds to the text of [content], for one item and
    for the items of a list. *)
Definition appends_item_text (li : DOM.node) : Prop :=
  forall content,
    JS.join (Some "") (appendLiToContent li content)
    = JS.join (Some "") content ++ Spec.item_text li ++ Spec.line_break.

(** ** Texts built from segments *)

(** A first segment followed by pairs of a separator and the segment behind
    it, written out as one text. *)
Fixpoint interleave (first : string) (rest : list (string * string)) : string :=
  match rest with
  | [] => first
  | (separator, segment) :: rest' => first ++ separator ++ interleave segment rest'
  end.

(** A pair of [interleave] whose separator is a line-break marker and whose
    segment holds none. *)
Definition marked_segment (p : string * string) : Prop :=
  BrPattern.Marker (fst p) /\ BrPattern.marker_free (snd p).

(** The markup of a flat list with the given item texts, the flat text with
    one line per item, and the item texts this is stated for: non-empty and
    without markup. *)
Definition items_markup (items : list string) : string :=
  fold_right (fun item rest => "<li>" ++ item ++ "</li>" ++ rest) "" items.

Definition lines (items : list string) : string :=
  fold_right (fun item rest => item ++ "<br>" ++ rest) "" items.

Definition plain_item (item : string) : bool :=
  JS.truthy item && Spec.all_plain item.

(** ** Transforms

    The blocks the transforms create, with the attributes each transform
    passes to [createBlock]. *)
Inductive typed_block : Type :=
  | ListBlock (nodeName : string) (values : option string)
  | ParagraphBlock (content : option string)
  | QuoteBlock (value : list (option string)).

(** From "core/paragraph", and the transform of the two patterns with the
    node name each one fixes. *)
Definition list_from_content (nodeName : string) (content : option string) : typed_block :=
  ListBlock nodeName (fromBrDelimitedContent content).

Definition list_from_paragraph (content : option string) : typed_block :=
  list_from_content "UL" content.

(** From "core/quote": the mapped array is added to a string, which converts
    it with [toString], that is [join()]. *)
Definition list_from_quote (value : list string) (citation : option string) : typed_block :=
  let values :=
    JS.join None (map (fun subValue => Some ("<li>" ++ subValue ++ "</li>")) value)
    ++ match citation with
       | Some c => if JS.truthy c then "<li>" ++ c ++ "</li>" else ""
       | None => ""
       end in
  ListBlock "UL" (Some values).

(** To "core/paragraph" and to "core/quote"; [None] where
    [toBrDelimitedContent] is. *)
Definition list_to_paragraph (values : option string) : option typed_block :=
  option_map ParagraphBlock (toBrDelimitedContent values).

Definition list_to_quote (values : option string) : option typed_block :=
  option_map (fun content => QuoteBlock [content]) (toBrDelimitedContent values).

(** The patterns [/^[*-]\s/] and [/^1[.)]\s/] tested on a text. *)
Definition unordered_pattern (text : string) : bool :=
  match text with
  | String c (String d _) =>
      (Ascii.eqb c "*" || Ascii.eqb c "-") && JS.is_space d
  | _ => false
  end.

Definition ordered_pattern (text : string) : bool :=
  match text with
  | String c (String d (String e _)) =>
      Ascii.eqb c "1" && (Ascii.eqb d "." || Ascii.eqb d ")") && JS.is_space e
  | _ => false
  end.

(** ** The edit component *)

(** [find( parents, ... )] with the test of [findInternalListType]. *)
Definition is_list (node : DOM.node) : bool :=
  String.eqb (DOM.nodeName node) "UL" || String.eqb (DOM.nodeName node) "OL".

Definition findInternalListType (parents : list DOM.node) : option string :=
  match List.find is_list parents with
  | Some list => Some (DOM.nodeName list)
  | None => None
  end.

(** [isListActive], on the state's [internalListType] ([None] is [null]) and
    the block's attributes. *)
Definition isListActive (internalListType : option string) (attrs : attributes)
    (listType : string) : bool :=
  String.eqb listType
    (match internalListType with
     | Some t => if JS.truthy t then t else nodeName attrs
     | None => nodeName attrs
     end).

(** What the handler made by [createSetListType] does when it is called:
    run an editor command, set the [nodeName] attribute, or nothing.
    [editor_set] tells whether [this.editor] has been set by [setupEditor]. *)
Inductive effect : Type :=
  | ExecCommand (command : string)
  | SetNodeName (type : string)
  | NoEffect.

Definition createSetListType (internalListType : option string) (editor_set : bool)
    (type command : string) : effect :=
  match internalListType with
  | Some t =>
      if JS.truthy t then
        if negb (String.eqb t type) && editor_set then ExecCommand command
        else NoEffect
      else SetNodeName type
  | None => SetNodeName type
  end.

(** The attributes of the block after an effect. *)
Definition attributes_after (e : effect) (attrs : attributes) : attributes :=
  match e with
  | SetNodeName type => {| nodeName := type; values := values attrs |}
  | _ => attrs
  end.

(** ** Blocks handed to [merge] *)

(** Reading a property of an attributes object: [undefined] when missing. *)
Fixpoint property (key : string) (attrs : list (string * string)) : option string :=
  match attrs with
  | [] => None
  | (k, v) :: rest => if String.eqb k key then Some v else property key rest
  end.

(** The attributes of a block as [merge] reads them. *)
Definition to_merge (b : block) : attributes_to_merge :=
  ToMerge (property "values" (given b)) (property "content" (given b)).

(** The text [merge] takes from the attributes merged in. *)
Definition merged_text (incoming : attributes_to_merge) : string :=
  match merged_values incoming with Some v => v | None => "" end
  ++ match merged_content incoming with Some c => c | None => "" end.

(** ** Saving *)




(** * Properties *)

(** ** Strings *)

Lemma append_assoc (a b c : string) : (a ++ b) ++ c = a ++ (b ++ c).
Proof.
  induction a as [|x a IH]; simpl; [reflexivity | now rewrite IH].
Qed.

Lemma append_nil_r (a : string) : a ++ "" = a.
Proof.
  induction a as [|x a IH]; simpl; [reflexivity | now rewrite IH].
Qed.

Lemma length_append (a b : string) :
  String.length (a ++ b) = String.length a + String.length b.
Proof.
  induction a as [|x a IH]; simpl; [reflexivity | now rewrite IH].
Qed.

(** ** The pattern and its matcher *)

Lemma literal_sound (p s r : string) :
  BrPattern.literal p s = Some r -> s = p ++ r.
Proof.
  revert s; induction p as [|a p IH]; intros s H; simpl in H.
  - now inversion H.
  - destruct s as [|c s]; [discriminate|].
    destruct (Ascii.eqb_spec c a) as [->|]; [|discriminate].
    simpl; f_equal; auto.
Qed.

Lemma literal_complete (p r : string) :
  BrPattern.literal p (p ++ r) = Some r.
Proof.
  induction p as [|a p IH]; simpl; [reflexivity|].
  now rewrite Ascii.eqb_refl.
Qed.

Lemma space_is_no_delimiter (c : ascii) (s : string) :
  JS.is_space c = true -> BrPattern.slash_gt (String c s) = None.
Proof.
  destruct c as [[] [] [] [] [] [] [] []]; intro H;
    solve [ discriminate H | reflexivity ].
Qed.

Lemma slash_gt_sound (s : string) (k : nat) :
  BrPattern.slash_gt s = Some k ->
  exists tail post,
    (tail = ">" \/ tail = "/>") /\ s = tail ++ post /\ k = String.length tail.
Proof.
  unfold BrPattern.slash_gt; intro H.
  destruct (BrPattern.literal "/>" s) as [r|] eqn:E2.
  - apply literal_sound in E2; inversion H; subst.
    exists "/>", r; auto.
  - destruct (BrPattern.literal ">" s) as [r|] eqn:E1; [|discriminate].
    apply literal_sound in E1; inversion H; subst.
    exists ">", r; auto.
Qed.

Lemma lazy_spaces_sound (s : string) :
  forall n k,
    BrPattern.lazy_spaces s n = Some k ->
    exists ws tail post,
      BrPattern.all_space ws = true /\ (tail = ">" \/ tail = "/>") /\
      s = ws ++ tail ++ post /\ k = n + String.length ws + String.length tail.
Proof.
  induction s as [|c s IH]; intros n k H; simpl in H.
  - destruct (BrPattern.slash_gt "") eqn:E; discriminate.
  - destruct (BrPattern.slash_gt (String c s)) as [j|] eqn:E.
    + inversion H; subst; clear H.
      destruct (slash_gt_sound _ _ E) as (tail & post & Ht & Hs & ->).
      exists "", tail, post; simpl; repeat split; auto; lia.
    + destruct (JS.is_space c) eqn:Hc; [|discriminate].
      destruct (IH _ _ H) as (ws & tail & post & Hws & Ht & -> & ->).
      exists (String c ws), tail, post; simpl; rewrite Hc, Hws.
      repeat split; auto; lia.
Qed.

Lemma lazy_spaces_complete (ws tail post : string) :
  BrPattern.all_space ws = true -> tail = ">" \/ tail = "/>" ->
  forall n,
    BrPattern.lazy_spaces (ws ++ tail ++ post) n
    = Some (n + String.length ws + String.length tail).
Proof.
  intros Hws Ht; induction ws as [|c ws IH]; intro n.
  - simpl String.length; simpl append.
    destruct Ht as [-> | ->]; simpl; f_equal; lia.
  - simpl in Hws; apply andb_true_iff in Hws as [Hc Hws].
    change (String c ws ++ tail ++ post) with (String c (ws ++ tail ++ post)).
    simpl BrPattern.lazy_spaces.
    rewrite (space_is_no_delimiter c _ Hc), Hc, (IH Hws).
    simpl; f_equal; lia.
Qed.

Lemma match_at_sound (s : string) (n : nat) :
  BrPattern.match_at s = Some n ->
  exists m post, s = m ++ post /\ BrPattern.Marker m /\ String.length m = n.
Proof.
  unfold BrPattern.match_at; intro H.
  destruct (BrPattern.literal "<br" s) as [r|] eqn:E; [|discriminate].
  apply literal_sound in E; subst s.
  destruct (lazy_spaces_sound _ _ _ H) as (ws & tail & post & Hws & Ht & -> & ->).
  exists ("<br" ++ ws ++ tail), post; split; [|split].
  - now rewrite !append_assoc.
  - destruct Ht as [-> | ->]; now constructor.
  - rewrite !length_append; simpl; lia.
Qed.

Lemma match_at_complete (m post : string) :
  BrPattern.Marker m ->
  BrPattern.match_at (m ++ post) = Some (String.length m).
Proof.
  unfold BrPattern.match_at.
  intros [ws Hws | ws Hws]; rewrite !append_assoc, literal_complete.
  - rewrite (lazy_spaces_complete ws ">" post Hws (or_introl eq_refl)).
    rewrite !length_append; simpl; f_equal; lia.
  - rewrite (lazy_spaces_complete ws "/>" post Hws (or_intror eq_refl)).
    rewrite !length_append; simpl; f_equal; lia.
Qed.

(** ** Splitting on the pattern *)

Lemma split_loop_inside (m rest seg : string) :
  BrPattern.split_loop (m ++ rest) (String.length m) seg
  = BrPattern.split_loop rest 0 seg.
Proof.
  induction m as [|c m IH]; simpl; [reflexivity | exact IH].
Qed.

Lemma marker_nonempty (m : string) :
  BrPattern.Marker m -> exists c m', m = String c m'.
Proof.
  intros [ws _ | ws _]; simpl; eauto.
Qed.

Lemma split_loop_marker (m rest seg : string) :
  BrPattern.Marker m ->
  BrPattern.split_loop (m ++ rest) 0 seg = seg :: BrPattern.split_loop rest 0 "".
Proof.
  intro Hm.
  pose proof (match_at_complete m rest Hm) as Hmatch.
  destruct (marker_nonempty m Hm) as (c & m' & ->).
  change (String c m' ++ rest) with (String c (m' ++ rest)) in *.
  simpl BrPattern.split_loop; rewrite Hmatch; simpl.
  now rewrite split_loop_inside.
Qed.

Lemma split_markers (ms : list string) (seg : string) :
  Forall BrPattern.Marker ms ->
  BrPattern.split_loop (fold_right append "" ms) 0 seg
  = seg :: repeat "" (List.length ms).
Proof.
  intro H; revert seg; induction H as [|m ms Hm _ IH]; intro seg; simpl.
  - reflexivity.
  - now rewrite (split_loop_marker m _ seg Hm), IH.
Qed.

Lemma marker_free_no_match_at (pre s : string) :
  BrPattern.marker_free (pre ++ s) -> BrPattern.match_at s = None.
Proof.
  intro Hfree; destruct (BrPattern.match_at s) as [n|] eqn:E; [|reflexivity].
  destruct (match_at_sound _ _ E) as (m & post & -> & Hm & _).
  now destruct (Hfree pre m post eq_refl).
Qed.

Lemma split_loop_marker_free (s : string) :
  forall pre seg,
    BrPattern.marker_free (pre ++ s) ->
    BrPattern.split_loop s 0 seg = [seg ++ s].
Proof.
  induction s as [|c s IH]; intros pre seg Hfree.
  - simpl; now rewrite append_nil_r.
  - simpl BrPattern.split_loop.
    rewrite (marker_free_no_match_at pre _ Hfree).
    rewrite (IH (pre ++ String c "") (seg ++ String c "")).
    + now rewrite append_assoc.
    + now rewrite append_assoc.
Qed.

Lemma no_match_marker_free (s : string) :
  BrPattern.no_match s = true -> BrPattern.marker_free s.
Proof.
  intros Hno pre; revert s Hno.
  induction pre as [|c pre IH]; intros s Hno m post -> Hm.
  - destruct m as [|c m]; [now destruct (marker_nonempty _ Hm) as (? & ? & ?)|].
    simpl in Hno.
    change (BrPattern.match_at (String c m ++ post)) with
      (BrPattern.match_at (String c (m ++ post))) in *.
    pose proof (match_at_complete _ post Hm) as E.
    change (String c m ++ post) with (String c (m ++ post)) in E.
    unfold BrPattern.no_match in Hno; fold BrPattern.no_match in Hno.
    rewrite E in Hno; discriminate.
  - change (String c pre ++ m ++ post) with (String c (pre ++ m ++ post)) in Hno.
    unfold BrPattern.no_match in Hno; fold BrPattern.no_match in Hno.
    destruct (BrPattern.match_at (String c (pre ++ m ++ post))); [discriminate|].
    exact (IH _ Hno m post eq_refl Hm).
Qed.

(** ** Flat text to list markup *)

Lemma reduce_empty_segments (segments : list string) (memo : list (option string)) :
  Forall (fun seg => seg = "") segments -> JS.reduce li_of segments memo = memo.
Proof.
  intro H; revert memo; induction H as [|seg segments -> _ IH]; intro memo; simpl.
  - reflexivity.
  - apply IH.
Qed.

(** C7. Both converters pass [undefined] through: on [undefined] each returns
    [undefined], and neither fails. *)
Theorem undefined_is_propagated :
  fromBrDelimitedContent None = None /\ toBrDelimitedContent None = Some None.
Proof.
  split; reflexivity.
Qed.

(** C8. An input all of whose break-separated segments are empty, the empty
    string among them, is converted to the empty string: no list item is made
    from an empty segment. *)
Theorem empty_segments_give_no_items (content : string) :
  Forall (fun seg => seg = "") (BrPattern.split content) ->
  fromBrDelimitedContent (Some content) = Some "".
Proof.
  intro H; unfold fromBrDelimitedContent.
  now rewrite (reduce_empty_segments _ [] H).
Qed.

(** A run of break markers, the empty run included, has only empty
    segments. *)
Lemma only_markers_have_empty_segments (ms : list string) :
  Forall BrPattern.Marker ms ->
  Forall (fun seg => seg = "") (BrPattern.split (fold_right append "" ms)).
Proof.
  intro H; unfold BrPattern.split; rewrite (split_markers ms "" H).
  constructor; [reflexivity|].
  induction (List.length ms); simpl; constructor; auto.
Qed.

Lemma empty_segments_give_no_items_witness :
  fromBrDelimitedContent (Some "") = Some "" /\
  fromBrDelimitedContent (Some "<br><br /><br/>") = Some "".
Proof.
  split.
  - apply (empty_segments_give_no_items ""); repeat constructor.
  - apply (empty_segments_give_no_items "<br><br /><br/>"); repeat constructor.
Defined.

Lemma marker_free_is_one_item (content : string) :
  content <> "" ->
  BrPattern.marker_free content ->
  fromBrDelimitedContent (Some content) = Some ("<li>" ++ content ++ "</li>").
Proof.
  intros Hne Hfree; unfold fromBrDelimitedContent, BrPattern.split.
  rewrite (split_loop_marker_free content "" "" Hfree); simpl.
  destruct content as [|c content]; [now destruct Hne|reflexivity].
Qed.

(** C10. A non-empty input without any substring that matches the line-break
    pattern becomes exactly one list item around the whole input. *)
Theorem single_segment_is_one_item (content : string) :
  content <> "" ->
  BrPattern.marker_free content ->
  fromBrDelimitedContent (Some content) = Some ("<li>" ++ content ++ "</li>").
Proof.
  exact (marker_free_is_one_item content).
Qed.

Lemma single_segment_is_one_item_witness :
  fromBrDelimitedContent (Some "one <b>item</b>") = Some "<li>one <b>item</b></li>".
Proof.
  apply (single_segment_is_one_item "one <b>item</b>").
  - discriminate.
  - apply no_match_marker_free; reflexivity.
Defined.

Lemma reduce_li_of (segments : list string) (memo : list (option string)) :
  JS.reduce li_of segments memo
  = app memo (map (fun seg => Some ("<li>" ++ seg ++ "</li>"))
                  (filter JS.truthy segments)).
Proof.
  unfold JS.reduce; revert memo.
  induction segments as [|seg segments IH]; intro memo; simpl.
  - now rewrite app_nil_r.
  - rewrite IH; unfold li_of, JS.push.
    destruct (JS.truthy seg); simpl; [now rewrite <- app_assoc | reflexivity].
Qed.

(** C1. The items made from the non-empty segments are joined by the default
    separator of [join()], a comma: on "a<br>b<br>c" the result is
    "<li>a</li>,<li>b</li>,<li>c</li>" and not the three items side by side. *)
Theorem items_are_joined_with_commas :
  (forall content,
     fromBrDelimitedContent (Some content)
     = Some (JS.join_with ","
               (map (fun seg => Some ("<li>" ++ seg ++ "</li>"))
                    (filter JS.truthy (BrPattern.split content))))) /\
  fromBrDelimitedContent (Some "a<br>b<br>c")
  = Some "<li>a</li>,<li>b</li>,<li>c</li>".
Proof.
  split.
  - intro content; unfold fromBrDelimitedContent.
    now rewrite reduce_li_of.
  - reflexivity.
Qed.

(** ** List markup to flat text *)

Lemma join_empty_cons (x : option string) (xs : list (option string)) :
  JS.join (Some "") (x :: xs) = JS.element_text x ++ JS.join (Some "") xs.
Proof.
  unfold JS.join; destruct xs as [|y ys]; simpl.
  - now rewrite append_nil_r.
  - reflexivity.
Qed.

Lemma join_empty_push (xs : list (option string)) (x : option string) :
  JS.join (Some "") (JS.push xs x) = JS.join (Some "") xs ++ JS.element_text x.
Proof.
  unfold JS.push; induction xs as [|y ys IH].
  - reflexivity.
  - change ((y :: ys) ++ [x])%list with (y :: (ys ++ [x])%list).
    now rewrite !join_empty_cons, IH, append_assoc.
Qed.

(** Induction on a node with the property at hand for all its children. *)
Section NodeInduction.

Variable P : DOM.node -> Prop.
Hypothesis text_case : forall data, P (DOM.Text data).
Hypothesis comment_case : forall data, P (DOM.Comment data).
Hypothesis element_case :
  forall name attrs children,
    Forall P children -> P (DOM.Element name attrs children).

Fixpoint node_children_ind (n : DOM.node) : P n :=
  match n with
  | DOM.Text data => text_case data
  | DOM.Comment data => comment_case data
  | DOM.Element name attrs children =>
      element_case name attrs children
        ((fix all (ns : list DOM.node) : Forall P ns :=
            match ns with
            | [] => Forall_nil P
            | n' :: ns' => Forall_cons n' (node_children_ind n') (all ns')
            end) children)
  end.

End NodeInduction.

Lemma forEach_appends_items (items : list DOM.node) :
  Forall appends_item_text items ->
  forall content,
    JS.join (Some "") (JS.forEach appendLiToContent items content)
    = JS.join (Some "") content ++ Spec.flat_text items.
Proof.
  unfold JS.forEach, Spec.flat_text.
  induction 1 as [|li items Hli _ IH]; intro content; simpl.
  - now rewrite append_nil_r.
  - now rewrite IH, Hli, !append_assoc.
Qed.

Lemma appendLiToContent_refines (li : DOM.node) :
  appends_item_text li /\ Forall appends_item_text (DOM.childNodes li).
Proof.
  induction li as [data | data | name attrs children IH] using node_children_ind.
  - split; [|constructor].
    intro content; simpl; now rewrite join_empty_push.
  - split; [|constructor].
    intro content; simpl; now rewrite join_empty_push.
  - assert (Hkids : Forall appends_item_text children).
    { clear -IH; induction IH as [|n ns [Hn _] _ IHns]; constructor; auto. }
    split; [|exact Hkids].
    intro content; simpl appendLiToContent.
    rewrite join_empty_push; simpl JS.element_text.
    rewrite <- append_assoc; unfold Spec.line_break; f_equal.
    clear Hkids; revert content.
    induction IH as [|child rest [_ Hchild] _ IHrest]; intro content.
    + simpl; now rewrite append_nil_r.
    + unfold JS.forEach at 1; simpl fold_left.
      fold (JS.forEach (A:=DOM.node) (S:=list (option string))).
      unfold JS.forEach at 1 in IHrest; rewrite IHrest; clear IHrest.
      simpl Spec.item_text; unfold Spec.texts at 2; simpl fold_right.
      rewrite <- append_assoc; f_equal.
      destruct child as [data | data | cname cattrs items].
      * simpl; now rewrite join_empty_push.
      * simpl; now rewrite join_empty_push.
      * destruct (is_nested_list (DOM.Element cname cattrs items)).
        -- apply (forEach_appends_items items Hchild).
        -- simpl; now rewrite join_empty_push.
Qed.

Lemma walk_is_flat_text (items : list DOM.node) :
  JS.join (Some "") (JS.forEach appendLiToContent items []) = Spec.flat_text items.
Proof.
  rewrite forEach_appends_items; [reflexivity|].
  induction items as [|li items IH]; constructor; auto.
  apply appendLiToContent_refines.
Qed.

(** C6. Whatever top-level items the markup holds, the flat text gives each
    item's content followed by exactly one line-break marker, the last item
    included. *)
Theorem every_item_ends_with_one_break (values : string) (items : list DOM.node) :
  DOM.innerHTML values = Some items ->
  toBrDelimitedContent (Some values)
  = Some (Some (Spec.texts (fun item => Spec.item_text item ++ "<br>") items)).
Proof.
  intro Hparse; unfold toBrDelimitedContent; rewrite Hparse.
  now rewrite walk_is_flat_text.
Qed.

Lemma every_item_ends_with_one_break_witness :
  toBrDelimitedContent (Some "<li>a</li><li>b</li>") = Some (Some "a<br>b<br>").
Proof.
  exact (every_item_ends_with_one_break "<li>a</li><li>b</li>"
           [DOM.Element "li" [] [DOM.Text "a"]; DOM.Element "li" [] [DOM.Text "b"]]
           eq_refl).
Defined.

(** C9. The empty string has no child nodes, so no line-break marker is
    pushed and the flat text of the default [values] is the empty string. *)
Theorem empty_values_give_empty_text :
  DOM.innerHTML "" = Some [] /\
  toBrDelimitedContent (Some "") = Some (Some "").
Proof.
  split; reflexivity.
Qed.

(** C5. [appendLiToContent] pushes the marker of an item after all of its
    children, the items of a nested list included: the parent's text and the
    first nested item are not separated, and "<li>a<ul><li>b</li></ul></li>"
    becomes "ab<br><br>". *)
Theorem nested_items_precede_the_parent_break :
  (forall text name items,
     name = "ul" \/ name = "ol" ->
     JS.join (Some "")
       (appendLiToContent
          (DOM.Element "li" [] [DOM.Text text; DOM.Element name [] items]) [])
     = text ++ Spec.flat_text items ++ "<br>") /\
  toBrDelimitedContent (Some "<li>a<ul><li>b</li></ul></li>")
  = Some (Some "ab<br><br>").
Proof.
  split; [|reflexivity].
  intros text name items Hname.
  destruct (appendLiToContent_refines
              (DOM.Element "li" [] [DOM.Text text; DOM.Element name [] items]))
    as [Hli _].
  assert (E : Spec.item_text
                (DOM.Element "li" [] [DOM.Text text; DOM.Element name [] items])
              = text ++ Spec.flat_text items).
  { destruct Hname as [-> | ->]; simpl; now rewrite append_nil_r. }
  rewrite Hli, E, append_assoc; reflexivity.
Qed.

(** C2. Converting "a<br>b" to list markup and back gives "a<br><br>b<br>":
    the comma that [fromBrDelimitedContent] puts between the two items is
    parsed as a text node between them, and [appendLiToContent] pushes a
    marker for it as for an item. *)
Theorem round_trip_doubles_the_break :
  fromBrDelimitedContent (Some "a<br>b") = Some "<li>a</li>,<li>b</li>" /\
  DOM.innerHTML "<li>a</li>,<li>b</li>"
  = Some [DOM.Element "li" [] [DOM.Text "a"]; DOM.Text ",";
          DOM.Element "li" [] [DOM.Text "b"]] /\
  toBrDelimitedContent (fromBrDelimitedContent (Some "a<br>b"))
  = Some (Some "a<br><br>b<br>").
Proof.
  repeat split; reflexivity.
Qed.

(** ** Merging and splitting blocks *)

Lemma merge_values (attrs : attributes) (incoming : attributes_to_merge) :
  values (merge attrs incoming)
  = values attrs
    ++ match merged_values incoming with Some v => v | None => "" end
    ++ match merged_content incoming with Some c => c | None => "" end.
Proof.
  destruct incoming as [[v|] [c|]]; unfold merge; simpl.
  - destruct v, c; simpl; now rewrite ?append_nil_r.
  - destruct v; simpl; now rewrite ?append_nil_r.
  - destruct c; reflexivity.
  - reflexivity.
Qed.

(** C4. [merge] keeps the node name of the base block, and its [values] are
    the base values followed by the incoming values, if any, and by the
    incoming content, if any, unchanged; a list holding "<li>x</li>" merged
    with a text block whose content is "y" holds "<li>x</li>y". *)
Theorem merge_concatenates :
  (forall attrs incoming,
     nodeName (merge attrs incoming) = nodeName attrs /\
     values (merge attrs incoming)
     = values attrs
       ++ match merged_values incoming with Some v => v | None => "" end
       ++ match merged_content incoming with Some c => c | None => "" end) /\
  merge (Attributes "UL" "<li>x</li>") (ToMerge None (Some "y"))
  = Attributes "UL" "<li>x</li>y".
Proof.
  split; [|reflexivity].
  intros attrs incoming; split; [reflexivity | apply merge_values].
Qed.

(** C3. Without intermediate blocks and with a non-empty [after], [onSplit]
    sets the values of the block to [before] and inserts, right behind the
    block and in this order, an empty paragraph and a list block with the
    block's node name and [after] as values. *)
Theorem split_inserts_paragraph_and_list (ed : editor) (before after : string) :
  after <> "" ->
  onSplit before after [] ed
  = {| current := {| nodeName := nodeName (current ed); values := before |};
       following :=
         createBlock "core/paragraph" []
         :: createBlock "core/list"
              [("nodeName", nodeName (current ed)); ("values", after)]
         :: following ed |}.
Proof.
  intro Hafter; destruct after as [|c after]; [now destruct Hafter|].
  reflexivity.
Qed.

Lemma split_inserts_paragraph_and_list_witness :
  onSplit "<li>a</li>" "<li>b</li>" []
    (Editor (Attributes "UL" "<li>a</li><li>b</li>") [])
  = Editor (Attributes "UL" "<li>a</li>")
      [ Block "core/paragraph" [];
        Block "core/list" [("nodeName", "UL"); ("values", "<li>b</li>")] ].
Proof.
  apply (split_inserts_paragraph_and_list
           (Editor (Attributes "UL" "<li>a</li><li>b</li>") [])
           "<li>a</li>" "<li>b</li>").
  discriminate.
Defined.

(** ** The fragment parser on list markup *)

Example implied_end_of_items :
  DOM.innerHTML "<li>a<ul><li>b<li>c</ul>d<li>e"
  = Some [DOM.Element "li" []
            [DOM.Text "a";
             DOM.Element "ul" []
               [DOM.Element "li" [] [DOM.Text "b"];
                DOM.Element "li" [] [DOM.Text "c"]];
             DOM.Text "d"];
          DOM.Element "li" [] [DOM.Text "e"]].
Proof. reflexivity. Qed.

Example inline_markup_is_kept :
  toBrDelimitedContent (Some "<li>a <em>b</em><br>c</li><li><STRONG>d</STRONG></li>")
  = Some (Some "a <em>b</em><br>c<br><strong>d</strong><br>").
Proof. reflexivity. Qed.

Example attributes_are_not_covered :
  DOM.innerHTML "<li><em class=x>a</em></li>" = None.
Proof. reflexivity. Qed.

(** ** The round trip of one segment *)

Lemma tokenize_plain (text rest : string) :
  Spec.all_plain text = true ->
  DOM.tokenize DOM.Data (text ++ rest)
  = option_map (app (map DOM.Character (list_ascii_of_string text)))
               (DOM.tokenize DOM.Data rest).
Proof.
  induction text as [|c text IH]; intro Hplain.
  - simpl; now destruct (DOM.tokenize DOM.Data rest).
  - simpl in Hplain; apply andb_true_iff in Hplain as [Hc Hplain].
    unfold Spec.plain in Hc; apply negb_true_iff in Hc.
    rewrite !orb_false_iff in Hc; destruct Hc as [[[Hlt Hamp] Hnul] Hcr].
    change (String c text ++ rest) with (String c (text ++ rest)).
    simpl DOM.tokenize; rewrite Hlt, Hamp, Hnul, Hcr; simpl.
    rewrite (IH Hplain).
    now destruct (DOM.tokenize DOM.Data rest).
Qed.

Lemma append_characters (cs : list ascii) :
  forall data before,
    fold_left (fun kids c => DOM.append_character c kids) cs
              (before ++ [DOM.Text data])%list
    = (before ++ [DOM.Text (data ++ string_of_list_ascii cs)])%list.
Proof.
  assert (Hone : forall c data before,
             DOM.append_character c (before ++ [DOM.Text data])%list
             = (before ++ [DOM.Text (data ++ String c "")])%list).
  { intros c data before; induction before as [|k before IH]; [reflexivity|].
    simpl; rewrite IH.
    destruct k; destruct before; reflexivity. }
  induction cs as [|c cs IH]; intros data before; simpl.
  - now rewrite append_nil_r.
  - rewrite Hone, IH, append_assoc; reflexivity.
Qed.

Lemma build_characters (cs : list ascii) (tokens : list DOM.token) :
  forall t kids below,
    DOM.build (DOM.Open t kids :: below) (map DOM.Character cs ++ tokens)
    = DOM.build
        (DOM.Open t (fold_left (fun kids c => DOM.append_character c kids) cs kids)
           :: below)
        tokens.
Proof.
  induction cs as [|c cs IH]; intros t kids below; simpl; [reflexivity|].
  apply IH.
Qed.

Lemma innerHTML_one_item (text : string) :
  text <> "" ->
  Spec.all_plain text = true ->
  DOM.innerHTML ("<li>" ++ text ++ "</li>")
  = Some [DOM.Element "li" [] [DOM.Text text]].
Proof.
  intros Hne Hplain; unfold DOM.innerHTML.
  change ("<li>" ++ text ++ "</li>")
    with (String "<" (String "l" (String "i" (String ">" (text ++ "</li>"))))).
  assert (Htok :
    DOM.tokenize DOM.Data
      (String "<" (String "l" (String "i" (String ">" (text ++ "</li>")))))
    = Some (DOM.StartTag "li"
              :: map DOM.Character (list_ascii_of_string text) ++ [DOM.EndTag "li"])%list).
  { cbn -[DOM.tokenize append]; simpl DOM.tokenize at 1.
    change (DOM.tokenize DOM.TagOpen (String "l" (String "i" (String ">" (text ++ "</li>")))))
      with (option_map (cons (DOM.StartTag "li")) (DOM.tokenize DOM.Data (text ++ "</li>"))).
    rewrite (tokenize_plain text "</li>" Hplain); reflexivity. }
  rewrite Htok; simpl DOM.bind.
  change (DOM.build [DOM.Open "html" []]
            (DOM.StartTag "li"
               :: map DOM.Character (list_ascii_of_string text) ++ [DOM.EndTag "li"])%list)
    with (DOM.build [DOM.Open "li" []; DOM.Open "html" []]
            (map DOM.Character (list_ascii_of_string text) ++ [DOM.EndTag "li"])%list).
  rewrite build_characters.
  destruct text as [|c text]; [now destruct Hne|].
  simpl list_ascii_of_string; simpl fold_left.
  pose proof (append_characters (list_ascii_of_string text) (String c "") [])
    as Htext.
  simpl app in Htext; rewrite Htext.
  rewrite string_of_list_ascii_of_string; reflexivity.
Qed.

Lemma plain_is_marker_free (text : string) :
  Spec.all_plain text = true -> BrPattern.marker_free text.
Proof.
  intros Hplain pre m post -> Hm.
  assert (Hbad : forall pre rest,
             Spec.all_plain (pre ++ String "<" rest) = false).
  { clear; intros pre rest; induction pre as [|c pre IH]; simpl.
    - reflexivity.
    - rewrite IH; apply andb_false_r. }
  destruct Hm as [ws _ | ws _];
    simpl in Hplain; rewrite Hbad in Hplain; discriminate.
Qed.

(** A single segment of plain text does survive the round trip: it comes
    back followed by one line-break marker.  The comma of [join()] appears
    only between two items. *)
Lemma one_segment_round_trip (content : string) :
  content <> "" ->
  Spec.all_plain content = true ->
  toBrDelimitedContent (fromBrDelimitedContent (Some content))
  = Some (Some (content ++ "<br>")).
Proof.
  intros Hne Hplain.
  rewrite (marker_free_is_one_item content Hne (plain_is_marker_free _ Hplain)).
  unfold toBrDelimitedContent.
  rewrite (innerHTML_one_item content Hne Hplain).
  rewrite walk_is_flat_text; simpl.
  now rewrite !append_nil_r.
Qed.

(** ** What [split] keeps and what it drops *)

Lemma marker_starts_with_lt (m : string) :
  BrPattern.Marker m -> exists m', m = String "<" m'.
Proof.
  intros [ws _ | ws _]; simpl; eauto.
Qed.

Lemma marker_free_empty : BrPattern.marker_free "".
Proof.
  intros pre m post E Hm.
  destruct (marker_nonempty m Hm) as (c & m' & ->).
  destruct pre; discriminate.
Qed.

Lemma marker_free_tail (c : ascii) (s : string) :
  BrPattern.marker_free (String c s) -> BrPattern.marker_free s.
Proof.
  intros H pre m post ->; apply (H (String c pre) m post); reflexivity.
Qed.

Lemma slash_gt_before_lt (a r : string) :
  BrPattern.slash_gt (a ++ String "<" r) = BrPattern.slash_gt a.
Proof.
  unfold BrPattern.slash_gt.
  destruct a as [|c [|d a]]; simpl.
  - reflexivity.
  - destruct (Ascii.eqb c "/"); destruct (Ascii.eqb c ">"); reflexivity.
  - destruct (Ascii.eqb c "/"); destruct (Ascii.eqb d ">");
      destruct (Ascii.eqb c ">"); reflexivity.
Qed.

Lemma lazy_spaces_before_lt (a r : string) :
  forall n,
    BrPattern.lazy_spaces (a ++ String "<" r) n = BrPattern.lazy_spaces a n.
Proof.
  induction a as [|c a IH]; intro n.
  - reflexivity.
  - change (String c a ++ String "<" r) with (String c (a ++ String "<" r)).
    simpl BrPattern.lazy_spaces.
    change (String c (a ++ String "<" r)) with (String c a ++ String "<" r).
    rewrite slash_gt_before_lt, IH; reflexivity.
Qed.

(** A match that starts before a "<" ends before it. *)
Lemma match_at_before_lt (a r : string) :
  a <> "" ->
  BrPattern.match_at (a ++ String "<" r) = BrPattern.match_at a.
Proof.
  intro Hne; unfold BrPattern.match_at.
  destruct a as [|c1 [|c2 [|c3 a]]]; [now destruct Hne| | |]; simpl.
  - destruct (Ascii.eqb c1 "<"); reflexivity.
  - destruct (Ascii.eqb c1 "<"); [|reflexivity].
    destruct (Ascii.eqb c2 "b"); reflexivity.
  - destruct (Ascii.eqb c1 "<"); [|reflexivity].
    destruct (Ascii.eqb c2 "b"); [|reflexivity].
    destruct (Ascii.eqb c3 "r"); [|reflexivity].
    apply lazy_spaces_before_lt.
Qed.

Lemma split_loop_segment (a : string) :
  forall m rest seg,
    BrPattern.marker_free a -> BrPattern.Marker m ->
    BrPattern.split_loop (a ++ m ++ rest) 0 seg
    = (seg ++ a) :: BrPattern.split_loop rest 0 "".
Proof.
  induction a as [|c a IH]; intros m rest seg Hfree Hm.
  - simpl; now rewrite append_nil_r, split_loop_marker.
  - destruct (marker_starts_with_lt m Hm) as (m' & ->).
    change (String c a ++ String "<" m' ++ rest)
      with (String c (a ++ String "<" (m' ++ rest))).
    simpl BrPattern.split_loop.
    change (String c (a ++ String "<" (m' ++ rest)))
      with (String c a ++ String "<" (m' ++ rest)).
    rewrite match_at_before_lt by discriminate.
    rewrite (marker_free_no_match_at "" (String c a) Hfree).
    change (a ++ String "<" (m' ++ rest)) with (a ++ String "<" m' ++ rest).
    rewrite (IH _ rest (seg ++ String c "") (marker_free_tail _ _ Hfree) Hm).
    now rewrite append_assoc.
Qed.

Lemma split_loop_interleave (pairs : list (string * string)) :
  forall first seg,
    BrPattern.marker_free first -> Forall marked_segment pairs ->
    BrPattern.split_loop (interleave first pairs) 0 seg
    = (seg ++ first) :: map snd pairs.
Proof.
  induction pairs as [|[m s] pairs IH]; intros first seg Hfirst Hpairs.
  - simpl; apply (split_loop_marker_free first "" seg Hfirst).
  - inversion Hpairs as [|? ? [Hm Hs] Hrest]; subst; simpl in Hm, Hs.
    simpl interleave; rewrite split_loop_segment by assumption.
    now rewrite (IH s "" Hs Hrest).
Qed.

Lemma split_of_segments (first : string) (pairs : list (string * string)) :
  BrPattern.marker_free first ->
  Forall marked_segment pairs ->
  BrPattern.split (interleave first pairs) = first :: map snd pairs.
Proof.
  intros Hfirst Hpairs; unfold BrPattern.split.
  now rewrite split_loop_interleave.
Qed.

(** X1. Splitting undoes the joining of marker-free segments by markers: the
    segments come back, in order, whatever spelling each marker has. *)
Theorem split_of_joined_segments (first : string) (pairs : list (string * string)) :
  BrPattern.marker_free first ->
  Forall marked_segment pairs ->
  BrPattern.split (interleave first pairs) = first :: map snd pairs.
Proof.
  exact (split_of_segments first pairs).
Qed.

Lemma split_of_joined_segments_witness :
  BrPattern.split (interleave "a" [("<br>", "b"); ("<br />", ""); ("<br/>", "c")])
  = ["a"; "b"; ""; "c"].
Proof.
  apply (split_of_joined_segments "a" [("<br>", "b"); ("<br />", ""); ("<br/>", "c")]).
  - apply no_match_marker_free; reflexivity.
  - repeat constructor; simpl;
      solve [ apply (BrPattern.marker_open ""); reflexivity
            | apply (BrPattern.marker_open " "); reflexivity
            | apply (BrPattern.marker_self_closing ""); reflexivity
            | apply (BrPattern.marker_self_closing " "); reflexivity
            | apply no_match_marker_free; reflexivity ].
Defined.

Lemma first_match (s : string) :
  BrPattern.no_match s = true \/
  exists a m rest,
    s = a ++ m ++ rest /\ BrPattern.Marker m /\ BrPattern.marker_free a /\
    String.length rest < String.length s.
Proof.
  induction s as [|c s IH].
  - now left.
  - destruct (BrPattern.match_at (String c s)) as [n|] eqn:Hmatch.
    + right; destruct (match_at_sound _ _ Hmatch) as (m & post & E & Hm & _).
      exists "", m, post; repeat split; auto using marker_free_empty.
      rewrite E, length_append.
      destruct (marker_nonempty m Hm) as (? & ? & ->); simpl; lia.
    + destruct IH as [Hno | (a & m & rest & -> & Hm & Hfree & Hlen)].
      * left; unfold BrPattern.no_match; fold BrPattern.no_match.
        now rewrite Hmatch.
      * right; exists (String c a), m, rest; repeat split; auto.
        -- intros pre mk post E Hmk; destruct pre as [|c0 pre].
           ++ simpl in E.
              assert (Hs : String c (a ++ m ++ rest) = mk ++ (post ++ m ++ rest)).
              { change (String c (a ++ m ++ rest)) with (String c a ++ m ++ rest).
                now rewrite E, append_assoc. }
              rewrite Hs, (match_at_complete mk _ Hmk) in Hmatch; discriminate.
           ++ simpl in E; injection E as _ E.
              exact (Hfree pre mk post E Hmk).
        -- simpl; lia.
Qed.

Lemma decomposition (n : nat) :
  forall s,
    String.length s <= n ->
    exists first pairs,
      s = interleave first pairs /\ BrPattern.marker_free first /\
      Forall marked_segment pairs.
Proof.
  induction n as [|n IH]; intros s Hlen.
  - destruct s; [|simpl in Hlen; lia].
    exists "", []; repeat split; auto using marker_free_empty.
  - destruct (first_match s) as [Hno | (a & m & rest & -> & Hm & Hfree & Hrest)].
    + exists s, []; repeat split; auto using no_match_marker_free.
    + destruct (IH rest ltac:(lia)) as (first & pairs & -> & Hfirst & Hpairs).
      exists a, ((m, first) :: pairs); repeat split; auto.
      constructor; [split|]; assumption.
Qed.

(** X2. Splitting loses nothing but the markers: the content is its segments
    with a line-break marker between each two of them, and no segment holds
    a marker. *)
Theorem split_loses_only_markers (content : string) :
  exists first pairs,
    BrPattern.split content = first :: map snd pairs /\
    content = interleave first pairs /\
    Forall BrPattern.Marker (map fst pairs) /\
    Forall BrPattern.marker_free (BrPattern.split content).
Proof.
  destruct (decomposition (String.length content) content (le_n _))
    as (first & pairs & E & Hfirst & Hpairs).
  exists first, pairs.
  assert (Hsplit : BrPattern.split content = first :: map snd pairs).
  { rewrite E at 1; now apply split_of_segments. }
  rewrite Hsplit; repeat split; auto.
  - clear -Hpairs; induction Hpairs as [|p ps [Hm _] _ IHps]; simpl; constructor; auto.
  - constructor; [assumption|].
    clear -Hpairs; induction Hpairs as [|p ps [_ Hs] _ IHps]; simpl; constructor; auto.
Qed.

Lemma interleave_trailing (pairs : list (string * string)) :
  forall first m,
    interleave first pairs ++ m = interleave first (pairs ++ [(m, "")]).
Proof.
  induction pairs as [|[sep seg] pairs IH]; intros first m; simpl.
  - now rewrite append_nil_r.
  - now rewrite !append_assoc, IH.
Qed.

Lemma reduce_trailing_empty (segments : list string) (memo : list (option string)) :
  JS.reduce li_of (segments ++ [""]) memo = JS.reduce li_of segments memo.
Proof.
  unfold JS.reduce; now rewrite fold_left_app.
Qed.

(** X3. A line-break marker at the end of the content makes no list item: the
    empty segment behind it is dropped. *)
Theorem trailing_marker_is_ignored (content m : string) :
  BrPattern.Marker m ->
  fromBrDelimitedContent (Some (content ++ m)) = fromBrDelimitedContent (Some content).
Proof.
  intro Hm.
  destruct (decomposition (String.length content) content (le_n _))
    as (first & pairs & -> & Hfirst & Hpairs).
  unfold fromBrDelimitedContent.
  rewrite interleave_trailing.
  rewrite !split_of_segments; auto.
  - rewrite map_app; simpl map.
    change (first :: (map snd pairs ++ [""])%list)
      with ((first :: map snd pairs) ++ [""])%list.
    now rewrite reduce_trailing_empty.
  - apply Forall_app; split; [assumption|].
    repeat constructor; [exact Hm | exact marker_free_empty].
Qed.

Lemma trailing_marker_is_ignored_witness :
  fromBrDelimitedContent (Some ("a<br>b" ++ "<br />"))
  = fromBrDelimitedContent (Some "a<br>b").
Proof.
  apply (trailing_marker_is_ignored "a<br>b" "<br />").
  apply (BrPattern.marker_self_closing " "); reflexivity.
Defined.

(** ** Flat lists *)

Lemma tokenize_item (item rest : string) :
  Spec.all_plain item = true ->
  DOM.tokenize DOM.Data ("<li>" ++ item ++ "</li>" ++ rest)
  = option_map
      (app (DOM.StartTag "li"
              :: map DOM.Character (list_ascii_of_string item) ++ [DOM.EndTag "li"]))
      (DOM.tokenize DOM.Data rest).
Proof.
  intro Hplain.
  change (DOM.tokenize DOM.Data ("<li>" ++ item ++ "</li>" ++ rest))
    with (option_map (cons (DOM.StartTag "li"))
            (DOM.tokenize DOM.Data (item ++ "</li>" ++ rest))).
  rewrite (tokenize_plain item ("</li>" ++ rest) Hplain).
  change (DOM.tokenize DOM.Data ("</li>" ++ rest))
    with (option_map (cons (DOM.EndTag "li")) (DOM.tokenize DOM.Data rest)).
  destruct (DOM.tokenize DOM.Data rest) as [tokens|]; simpl; [|reflexivity].
  now rewrite <- app_assoc.
Qed.

Lemma build_item (item : string) (tokens : list DOM.token) (kids : list DOM.node) :
  item <> "" ->
  DOM.build [DOM.Open "html" kids]
    ((DOM.StartTag "li"
        :: map DOM.Character (list_ascii_of_string item) ++ [DOM.EndTag "li"])
     ++ tokens)
  = DOM.build
      [DOM.Open "html" (kids ++ [DOM.Element "li" [] [DOM.Text item]])] tokens.
Proof.
  intro Hne.
  change (DOM.build [DOM.Open "html" kids]
            ((DOM.StartTag "li"
                :: map DOM.Character (list_ascii_of_string item) ++ [DOM.EndTag "li"])
             ++ tokens))
    with (DOM.build [DOM.Open "li" []; DOM.Open "html" kids]
            ((map DOM.Character (list_ascii_of_string item) ++ [DOM.EndTag "li"])
             ++ tokens)).
  rewrite <- app_assoc, build_characters.
  destruct item as [|c item]; [now destruct Hne|].
  simpl list_ascii_of_string; simpl fold_left.
  pose proof (append_characters (list_ascii_of_string item) (String c "") [])
    as Htext.
  simpl app in Htext; rewrite Htext, string_of_list_ascii_of_string.
  reflexivity.
Qed.

Lemma plain_item_spec (item : string) :
  plain_item item = true -> item <> "" /\ Spec.all_plain item = true.
Proof.
  unfold plain_item; intro H; apply andb_true_iff in H as [Hne Hplain].
  split; [|assumption].
  now destruct item.
Qed.

Lemma innerHTML_items (items : list string) :
  forallb plain_item items = true ->
  DOM.innerHTML (items_markup items)
  = Some (map (fun item => DOM.Element "li" [] [DOM.Text item]) items).
Proof.
  intro Hitems; unfold DOM.innerHTML.
  assert (Hgen : forall kids,
             DOM.bind (DOM.tokenize DOM.Data (items_markup items))
               (fun tokens =>
                  DOM.bind (DOM.build [DOM.Open "html" kids] tokens)
                    (fun stack => DOM.stop_parsing stack None))
             = Some (kids ++ map (fun item => DOM.Element "li" [] [DOM.Text item])
                                 items)%list).
  { induction items as [|item items IH]; intro kids.
    - simpl; now rewrite app_nil_r.
    - simpl in Hitems; apply andb_true_iff in Hitems as [Hitem Hitems].
      destruct (plain_item_spec item Hitem) as [Hne Hplain].
      specialize (IH Hitems (kids ++ [DOM.Element "li" [] [DOM.Text item]])%list).
      change (items_markup (item :: items))
        with ("<li>" ++ item ++ "</li>" ++ items_markup items).
      rewrite (tokenize_item item _ Hplain).
      destruct (DOM.tokenize DOM.Data (items_markup items)) as [tokens|];
        [|discriminate IH].
      unfold option_map, DOM.bind in *.
      rewrite (build_item item tokens kids Hne), IH.
      now rewrite <- app_assoc. }
  exact (Hgen []).
Qed.

Lemma flat_text_of_items (items : list string) :
  Spec.flat_text (map (fun item => DOM.Element "li" [] [DOM.Text item]) items)
  = lines items.
Proof.
  induction items as [|item items IH]; [reflexivity|].
  change (Spec.flat_text
            (map (fun item => DOM.Element "li" [] [DOM.Text item]) (item :: items)))
    with (((item ++ "") ++ "<br>")
          ++ Spec.flat_text
               (map (fun item => DOM.Element "li" [] [DOM.Text item]) items)).
  now rewrite IH, append_nil_r, append_assoc.
Qed.

(** X4. A flat list of plain items becomes the item texts, each followed by one
    line-break marker. *)
Theorem flat_list_becomes_lines (items : list string) :
  forallb plain_item items = true ->
  toBrDelimitedContent (Some (items_markup items)) = Some (Some (lines items)).
Proof.
  intro Hitems; unfold toBrDelimitedContent.
  rewrite (innerHTML_items items Hitems), walk_is_flat_text.
  now rewrite flat_text_of_items.
Qed.

Lemma flat_list_becomes_lines_witness :
  toBrDelimitedContent (Some "<li>one</li><li>two words</li><li>3</li>")
  = Some (Some "one<br>two words<br>3<br>").
Proof.
  apply (flat_list_becomes_lines ["one"; "two words"; "3"]); reflexivity.
Defined.

Lemma lines_interleave (items : list string) :
  forall item,
    lines (item :: items)
    = interleave item (map (fun t => ("<br>", t)) (items ++ [""])).
Proof.
  induction items as [|next items IH]; intro item.
  - reflexivity.
  - change (lines (item :: next :: items)) with (item ++ "<br>" ++ lines (next :: items)).
    now rewrite IH.
Qed.

Lemma filter_plain_items (items : list string) :
  forallb plain_item items = true ->
  filter JS.truthy (items ++ [""]) = items.
Proof.
  induction items as [|item items IH]; intro H; simpl in *; [reflexivity|].
  apply andb_true_iff in H as [Hitem H].
  destruct (plain_item_spec item Hitem) as [Hne _].
  destruct item; [now destruct Hne|]; simpl; now rewrite IH.
Qed.

Lemma lines_become_items (items : list string) :
  forallb plain_item items = true ->
  fromBrDelimitedContent (Some (lines items))
  = Some (JS.join_with "," (map (fun item => Some ("<li>" ++ item ++ "</li>")) items)).
Proof.
  intro Hitems; unfold fromBrDelimitedContent.
  destruct items as [|item items]; [reflexivity|].
  rewrite lines_interleave, split_of_segments.
  - rewrite map_map; cbn [snd]; rewrite map_id.
    change (item :: (items ++ [""])%list) with ((item :: items) ++ [""])%list.
    rewrite reduce_li_of.
    now rewrite (filter_plain_items _ Hitems).
  - simpl in Hitems; apply andb_true_iff in Hitems as [Hitem _].
    apply plain_is_marker_free, (plain_item_spec item Hitem).
  - simpl in Hitems; apply andb_true_iff in Hitems as [_ Hitems].
    apply Forall_map, Forall_app; split.
    + apply Forall_forall; intros t Ht; split; simpl.
      * apply (BrPattern.marker_open ""); reflexivity.
      * rewrite forallb_forall in Hitems.
        apply plain_is_marker_free, (plain_item_spec t (Hitems t Ht)).
    + repeat constructor; simpl;
        [apply (BrPattern.marker_open ""); reflexivity | exact marker_free_empty].
Qed.

(** X5. From a flat list of plain items to flat text and back: the items come
    back in order, joined by the comma of [join()]; a list of one item comes
    back unchanged. *)
Theorem list_to_text_and_back (items : list string) :
  forallb plain_item items = true ->
  exists flat,
    toBrDelimitedContent (Some (items_markup items)) = Some (Some flat) /\
    fromBrDelimitedContent (Some flat)
    = Some (JS.join_with ","
              (map (fun item => Some ("<li>" ++ item ++ "</li>")) items)).
Proof.
  intro Hitems; exists (lines items); split.
  - unfold toBrDelimitedContent.
    rewrite (innerHTML_items items Hitems), walk_is_flat_text.
    now rewrite flat_text_of_items.
  - now apply lines_become_items.
Qed.

Lemma list_to_text_and_back_witness :
  exists flat,
    toBrDelimitedContent (Some "<li>only item</li>") = Some (Some flat) /\
    fromBrDelimitedContent (Some flat) = Some "<li>only item</li>".
Proof.
  apply (list_to_text_and_back ["only item"]); reflexivity.
Defined.

(** ** Transforms between paragraph, quote and list *)

(** X6. A paragraph of one plain segment, made a list and then a paragraph
    again, has its text back with one line-break marker behind it. *)
Theorem paragraph_to_list_and_back (content : string) :
  plain_item content = true ->
  exists values,
    list_from_paragraph (Some content) = ListBlock "UL" (Some values) /\
    list_to_paragraph (Some values)
    = Some (ParagraphBlock (Some (content ++ "<br>"))).
Proof.
  intro Hitem; destruct (plain_item_spec content Hitem) as [Hne Hplain].
  exists ("<li>" ++ content ++ "</li>"); split.
  - unfold list_from_paragraph, list_from_content.
    now rewrite (marker_free_is_one_item content Hne (plain_is_marker_free _ Hplain)).
  - unfold list_to_paragraph, toBrDelimitedContent.
    rewrite (innerHTML_one_item content Hne Hplain), walk_is_flat_text; simpl.
    now rewrite !append_nil_r.
Qed.

Lemma paragraph_to_list_and_back_witness :
  exists values,
    list_from_paragraph (Some "Buy milk") = ListBlock "UL" (Some values) /\
    list_to_paragraph (Some values) = Some (ParagraphBlock (Some "Buy milk<br>")).
Proof.
  apply (paragraph_to_list_and_back "Buy milk"); reflexivity.
Defined.

(** X7. A quote of one plain paragraph with a plain citation becomes a list of
    two items, the paragraph and the citation, with nothing between them;
    as a paragraph this list is the two texts, one per line. *)
Theorem quote_to_list_to_paragraph (paragraph citation : string) :
  plain_item paragraph = true ->
  plain_item citation = true ->
  list_from_quote [paragraph] (Some citation)
  = ListBlock "UL" (Some (items_markup [paragraph; citation])) /\
  list_to_paragraph (Some (items_markup [paragraph; citation]))
  = Some (ParagraphBlock (Some (paragraph ++ "<br>" ++ citation ++ "<br>"))).
Proof.
  intros Hp Hc; split.
  - unfold list_from_quote; simpl map; unfold JS.join; simpl JS.join_with.
    destruct (plain_item_spec citation Hc) as [Hne _].
    destruct citation as [|c citation]; [now destruct Hne|].
    simpl; now rewrite append_assoc.
  - unfold list_to_paragraph, toBrDelimitedContent.
    rewrite (innerHTML_items [paragraph; citation]), walk_is_flat_text.
    + now rewrite flat_text_of_items.
    + simpl; now rewrite Hp, Hc.
Qed.

Lemma quote_to_list_to_paragraph_witness :
  list_from_quote ["To be"] (Some "Hamlet")
  = ListBlock "UL" (Some "<li>To be</li><li>Hamlet</li>") /\
  list_to_paragraph (Some "<li>To be</li><li>Hamlet</li>")
  = Some (ParagraphBlock (Some "To be<br>Hamlet<br>")).
Proof.
  apply (quote_to_list_to_paragraph "To be" "Hamlet"); reflexivity.
Defined.

(** X8. No text matches both the pattern of an unordered and the pattern of an
    ordered list. *)
Theorem patterns_are_disjoint (text : string) :
  unordered_pattern text && ordered_pattern text = false.
Proof.
  destruct text as [|c [|d [|e text]]]; try reflexivity.
  - simpl; apply andb_false_r.
  - unfold unordered_pattern, ordered_pattern.
    destruct (Ascii.eqb_spec c "1") as [->|]; simpl.
    + reflexivity.
    + apply andb_false_r.
Qed.

(** X9. Non-empty list markup always becomes flat text that ends with a
    line-break marker. *)
Theorem flat_text_ends_with_break (values : string) (first : DOM.node) (rest : list DOM.node) :
  DOM.innerHTML values = Some (first :: rest) ->
  exists text, toBrDelimitedContent (Some values) = Some (Some (text ++ "<br>")).
Proof.
  intro Hparse; unfold toBrDelimitedContent; rewrite Hparse, walk_is_flat_text.
  assert (H : forall items item,
             exists text, Spec.flat_text (item :: items) = text ++ "<br>").
  { induction items as [|next items IH]; intro item.
    - exists (Spec.item_text item); unfold Spec.flat_text; simpl.
      now rewrite append_nil_r.
    - destruct (IH next) as (text & E).
      exists (Spec.item_text item ++ "<br>" ++ text).
      change (Spec.flat_text (item :: next :: items))
        with ((Spec.item_text item ++ "<br>") ++ Spec.flat_text (next :: items)).
      now rewrite E, !append_assoc. }
  destruct (H rest first) as (text & ->); eauto.
Qed.

Lemma flat_text_ends_with_break_witness :
  exists text,
    toBrDelimitedContent (Some "<li>a<b>c</b></li>d") = Some (Some (text ++ "<br>")).
Proof.
  exact (flat_text_ends_with_break "<li>a<b>c</b></li>d"
           (DOM.Element "li" [] [DOM.Text "a"; DOM.Element "b" [] [DOM.Text "c"]])
           [DOM.Text "d"] eq_refl).
Defined.

(** ** Merging and splitting, continued *)

(** X10. Merging two blocks into a list one after the other gives the list that
    merging their texts at once gives. *)
Theorem merge_twice (attrs : attributes) (first second : attributes_to_merge) :
  merge (merge attrs first) second
  = merge attrs (ToMerge (Some (merged_text first)) (Some (merged_text second))).
Proof.
  assert (Heq : forall a b : attributes,
             nodeName a = nodeName b -> values a = values b -> a = b).
  { intros [n1 v1] [n2 v2]; simpl; now intros -> ->. }
  apply Heq; [reflexivity|].
  rewrite !merge_values; simpl; unfold merged_text.
  now rewrite !append_assoc.
Qed.

Lemma onSplit_blocks (ed : editor) (before after : string) (blocks : list block) :
  onSplit before after blocks ed
  = {| current := {| nodeName := nodeName (current ed); values := before |};
       following :=
         (match blocks with
          | [] => [createBlock "core/paragraph" []]
          | _ => blocks
          end
          ++ match after with
             | EmptyString => []
             | _ => [createBlock "core/list"
                       [("nodeName", nodeName (current ed)); ("values", after)]]
             end
          ++ following ed)%list |}.
Proof.
  unfold onSplit, insertBlocksAfter, setAttributes_values, JS.push; simpl.
  destruct blocks as [|b blocks], after as [|c after]; simpl;
    rewrite <- ?app_assoc; reflexivity.
Qed.


(** X12. Merging the blocks that a split without intermediate blocks inserted
    back into the block, one after the other, restores the content that was
    split: [before] followed by [after]. *)
Theorem split_then_merge (ed : editor) (before after : string) :
  exists inserted,
    following (onSplit before after [] ed) = (inserted ++ following ed)%list /\
    fold_left (fun attrs b => merge attrs (to_merge b)) inserted
      (current (onSplit before after [] ed))
    = {| nodeName := nodeName (current ed); values := before ++ after |}.
Proof.
  rewrite onSplit_blocks; simpl.
  destruct after as [|c after].
  - exists [createBlock "core/paragraph" []]; split; [reflexivity|].
    unfold merge; simpl; now rewrite !append_nil_r.
  - exists [createBlock "core/paragraph" [];
            createBlock "core/list"
              [("nodeName", nodeName (current ed)); ("values", String c after)]].
    split; [reflexivity|].
    unfold merge; simpl; now rewrite !append_nil_r.
Qed.

(** ** The toolbar of the edit component *)

Lemma is_list_names (node : DOM.node) :
  is_list node = true -> DOM.nodeName node = "UL" \/ DOM.nodeName node = "OL".
Proof.
  unfold is_list; intro H; apply orb_true_iff in H as [H | H];
    apply String.eqb_eq in H; auto.
Qed.

(** X13. [findInternalListType] answers with the name of the innermost list
    among the parents, "UL" or "OL", and with [null] exactly when no parent
    is a list. *)
Theorem internal_list_type_is_a_list (parents : list DOM.node) :
  (findInternalListType parents = None /\
   Forall (fun node => is_list node = false) parents) \/
  (exists before list after,
     parents = (before ++ list :: after)%list /\
     Forall (fun node => is_list node = false) before /\
     findInternalListType parents = Some (DOM.nodeName list) /\
     (DOM.nodeName list = "UL" \/ DOM.nodeName list = "OL")).
Proof.
  unfold findInternalListType.
  induction parents as [|node parents IH]; simpl.
  - left; split; [reflexivity | constructor].
  - destruct (is_list node) eqn:Hnode.
    + right; exists [], node, parents; repeat split; auto using is_list_names.
    + destruct IH as [[Hnone Hall] | (before & list & after & -> & Hbefore & Hfind & Hname)].
      * left; split; [exact Hnone | now constructor].
      * right; exists (node :: before), list, after; repeat split; auto.
Qed.

Lemma internal_type_cases (parents : list DOM.node) :
  findInternalListType parents = None \/
  findInternalListType parents = Some "UL" \/
  findInternalListType parents = Some "OL".
Proof.
  unfold findInternalListType.
  destruct (find is_list parents) as [list|] eqn:Hfind; [|now left].
  right; apply find_some in Hfind as [_ Hlist].
  destruct (is_list_names list Hlist) as [-> | ->]; auto.
Qed.

(** X14. For a block that is a "UL" or an "OL", exactly one of the two list
    buttons is shown active, wherever the cursor is. *)
Theorem one_list_button_is_active (parents : list DOM.node) (attrs : attributes) :
  nodeName attrs = "UL" \/ nodeName attrs = "OL" ->
  isListActive (findInternalListType parents) attrs "UL"
  = negb (isListActive (findInternalListType parents) attrs "OL").
Proof.
  intro Hname; unfold isListActive.
  destruct (internal_type_cases parents) as [-> | [-> | ->]]; simpl;
    try reflexivity.
  destruct Hname as [-> | ->]; reflexivity.
Qed.

Lemma one_list_button_is_active_witness :
  isListActive
    (findInternalListType [DOM.Element "li" [] []; DOM.Element "ol" [] []])
    (Attributes "UL" "") "UL"
  = negb (isListActive
            (findInternalListType [DOM.Element "li" [] []; DOM.Element "ol" [] []])
            (Attributes "UL" "") "OL").
Proof.
  apply (one_list_button_is_active
           [DOM.Element "li" [] []; DOM.Element "ol" [] []] (Attributes "UL" "")).
  left; reflexivity.
Defined.

(** X15. A click on the button of the list type that is shown active changes
    nothing: no editor command is run and the attributes stay as they are. *)
Theorem click_on_active_button (internalListType : option string) (editor_set : bool)
    (attrs : attributes) (type command : string) :
  isListActive internalListType attrs type = true ->
  createSetListType internalListType editor_set type command
    <> ExecCommand command /\
  attributes_after (createSetListType internalListType editor_set type command) attrs
  = attrs.
Proof.
  unfold isListActive, createSetListType; intro Hactive.
  destruct internalListType as [t|]; [destruct (JS.truthy t)|].
  - apply String.eqb_eq in Hactive; subst type.
    rewrite String.eqb_refl; simpl; split; [discriminate | reflexivity].
  - apply String.eqb_eq in Hactive; subst type.
    split; [discriminate | now destruct attrs].
  - apply String.eqb_eq in Hactive; subst type.
    split; [discriminate | now destruct attrs].
Qed.

Lemma click_on_active_button_witness :
  createSetListType (Some "OL") true "OL" "InsertOrderedList"
    <> ExecCommand "InsertOrderedList" /\
  attributes_after (createSetListType (Some "OL") true "OL" "InsertOrderedList")
    (Attributes "UL" "<li>a</li>")
  = Attributes "UL" "<li>a</li>".
Proof.
  apply (click_on_active_button (Some "OL") true (Attributes "UL" "<li>a</li>")
           "OL" "InsertOrderedList").
  reflexivity.
Defined.

(** ** The array of [appendLiToContent] *)

Lemma forEach_appends {A B : Type} (f : A -> list B -> list B) (xs : list A) :
  Forall (fun x => forall acc, f x acc = (acc ++ f x [])%list) xs ->
  forall acc, JS.forEach f xs acc = (acc ++ JS.forEach f xs [])%list.
Proof.
  unfold JS.forEach; induction 1 as [|x xs Hx _ IH]; intro acc; simpl.
  - now rewrite app_nil_r.
  - rewrite IH, (IH (f x [])), Hx; now rewrite app_assoc.
Qed.

Lemma appendLiToContent_extends (li : DOM.node) :
  (forall content,
     appendLiToContent li content = (content ++ appendLiToContent li [])%list) /\
  Forall (fun n => forall content,
            appendLiToContent n content = (content ++ appendLiToContent n [])%list)
         (DOM.childNodes li).
Proof.
  induction li as [data | data | name attrs children IH] using node_children_ind.
  - split; [reflexivity | constructor].
  - split; [reflexivity | constructor].
  - assert (Hkids : Forall (fun n => forall content,
                       appendLiToContent n content
                       = (content ++ appendLiToContent n [])%list) children).
    { clear -IH; induction IH as [|n ns [Hn _] _ IHns]; constructor; auto. }
    split; [|exact Hkids].
    intro content; simpl appendLiToContent; unfold JS.push.
    rewrite forEach_appends; [now rewrite <- app_assoc|].
    clear content Hkids.
    induction IH as [|child rest [_ Hgrand] _ IHrest]; constructor; [|exact IHrest].
    intro acc.
    destruct (is_nested_list child); [|destruct (Nat.eqb _ _); reflexivity].
    destruct child as [data | data | cname cattrs items];
      try (now rewrite app_nil_r).
    apply forEach_appends; exact Hgrand.
Qed.

(** X16. [appendLiToContent] only adds to the array: what was pushed before stays
    in place, and what is added for an item does not depend on it. *)
Theorem content_is_only_extended (li : DOM.node) (content : list (option string)) :
  appendLiToContent li content = (content ++ appendLiToContent li [])%list.
Proof.
  apply appendLiToContent_extends.
Qed.

(** ** Saving and reading back the node name *)



